(** * mathjax-corrector: a shallow embedding of [corrector.py]

    The development follows the source file top to bottom:
    - [Py]: the Python run-time notions the code relies on (exceptions,
      a state-and-exception monad, list-as-stack operations);
    - [Reconciler]: [MathJaxCorrector._replace_tag] (lines 134-173);
    - [Paths]: the [pathlib] attributes used by [FileManager.process];
    - [Files]: [Corrector.process] (lines 69-93) over a small file system;
    - [Manager]: [FileManager.__init__], [FileManager.files] and
      [FileManager.process] (lines 31-63);
    - [MathJaxCorrector]: [_correct_tag] and [_process] (lines 113-132).

    Every statement of the source is read with Python's run-time semantics.
    Names that the file uses but does not define (collaborating classes,
    functions and globals) are gathered in a class per component, so that
    every result holds for all of their implementations.  The definitions
    come first; the results about them form the second part of the file. *)

From Stdlib Require Import Strings.Ascii Strings.String Strings.Byte.
From stdpp Require Import base list strings gmap.


(* ===================================================================== *)
(** ** Python run-time notions *)
(* ===================================================================== *)

Module Py.

(** The exceptions that the modelled statements can raise. *)
Inductive exn : Type :=
| IndexError            (* [[].pop()], [[][-1]] *)
| NameError             (* read of a global that is bound nowhere *)
| UnboundLocalError     (* read of a local before its first assignment *)
| AttributeError        (* read of an attribute that was never set *)
| FileNotFoundError     (* [open(p, 'rb')] on a missing file *)
| UnsupportedOperation  (* [read] on a handle opened with 'wb' *)
| BrokenHtmlCode        (* [Exception('Broken html code:\n', HtmlTag)], line 171 *)
| TypeError             (* a call of [None]; [Path.match] on a compiled pattern *)
| re_error.             (* [re.compile] on a string that is no regular expression *)

Inductive outcome (A : Type) : Type :=
| Return (a : A)
| Raise (e : exn).
Arguments Return {A} a.
Arguments Raise {A} e.

(** Statements run in a state [S]; an exception keeps the state reached
    when it was raised (side effects are not rolled back). *)
Definition M (S A : Type) : Type := S -> outcome A * S.

Definition ret {S A} (a : A) : M S A := fun s => (Return a, s).
Definition raise {S A} (e : exn) : M S A := fun s => (Raise e, s).
Definition bind {S A B} (m : M S A) (k : A -> M S B) : M S B :=
  fun s => match m s with
           | (Return a, s') => k a s'
           | (Raise e, s') => (Raise e, s')
           end.
Definition get {S} : M S S := fun s => (Return s, s).
Definition modify {S} (f : S -> S) : M S unit := fun s => (Return tt, f s).
Definition lift {S A} (o : outcome A) : M S A := fun s => (o, s).

Declare Scope py_scope.
Delimit Scope py_scope with py.
Notation "x <- m ;; k" := (bind m (fun x => k))
  (at level 100, m at next level, right associativity) : py_scope.
Notation "m ;;; k" := (bind m (fun _ => k))
  (at level 100, right associativity) : py_scope.

(** [for x in xs: body x] *)
Fixpoint for_each {S A} (xs : list A) (body : A -> M S unit) : M S unit :=
  match xs with
  | [] => ret tt
  | x :: xs' => bind (body x) (fun _ => for_each xs' body)
  end.

(** A Python list used as a stack keeps its top at the end. *)

(** [not stack] *)
Definition is_empty {A} (l : list A) : bool :=
  match l with [] => true | _ => false end.

(** [stack.append(x)] *)
Definition append {A} (l : list A) (x : A) : list A := l ++ [x].

(** [stack.pop()], keeping only the remaining list *)
Definition pop {A} (l : list A) : outcome (list A) :=
  match l with
  | [] => Raise IndexError
  | _ => Return (removelast l)
  end.

(** [stack[-1]] *)
Definition top {A} (l : list A) : outcome A :=
  match last l with
  | Some x => Return x
  | None => Raise IndexError
  end.

End Py.

Import Py.
Local Open Scope py_scope.

(* ===================================================================== *)
(** ** The tag reconciler: [MathJaxCorrector._replace_tag] *)
(* ===================================================================== *)

Module Reconciler.

(** Modelled from the spec: the token classes [MathJaxTag] and [HtmlTag]
    are used by [_replace_tag] but declared nowhere in the file.  The code
    reads the attributes [closed] and [broken] of a token; the spec (section
    3) gives a token a scheme and a name.  The four kinds of the spec are the
    two classes combined with [closed]. *)
Inductive TagClass : Type := MathJaxTag | HtmlTag.

Record Tag : Type := mkTag {
  tag_class : TagClass;
  tag_name : string;
  closed : bool;
  broken : bool
}.

Definition isinstance (t : Tag) (c : TagClass) : bool :=
  match tag_class t, c with
  | MathJaxTag, MathJaxTag | HtmlTag, HtmlTag => true
  | _, _ => false
  end.

(** [tag.broken = True] *)
Definition mark_broken (t : Tag) : Tag :=
  {| tag_class := tag_class t; tag_name := tag_name t;
     closed := closed t; broken := true |}.

Definition MathDelimiterOpen (n : string) : Tag := mkTag MathJaxTag n false false.
Definition MathDelimiterClose (n : string) : Tag := mkTag MathJaxTag n true false.
Definition HtmlOpen (n : string) : Tag := mkTag HtmlTag n false false.
Definition HtmlClose (n : string) : Tag := mkTag HtmlTag n true false.

(** The collaborators that [_replace_tag] calls and the file does not
    define, over the type [Html] of the serialized fragment.
    Line 159 reads a global [math_tag_stack], while the function only ever
    assigns [mathjax_tag_stack] and [html_tag_stack]; [None] stands for
    "bound nowhere". *)
Class Collaborators (Html : Type) : Type := {
  match_tag : Html -> list Tag;          (* [match_tag(html)] *)
  tag_call : Tag -> Tag;                 (* [tag()] *)
  tag_delete : Tag -> Html -> Html;      (* [tag.delete(html)] *)
  tag_replace : Tag -> Html -> Html;     (* [tag.replace(html)] *)
  math_tag_stack : option (list Tag)
}.

(** The three local variables of [_replace_tag]. *)
Record scan (Html : Type) : Type := mkScan {
  html : Html;
  mathjax_tag_stack : list Tag;
  html_tag_stack : list Tag
}.
Arguments mkScan {Html} html mathjax_tag_stack html_tag_stack.
Arguments html {Html} s.
Arguments mathjax_tag_stack {Html} s.
Arguments html_tag_stack {Html} s.

Definition set_html {Html} (f : Html -> Html) (s : scan Html) : scan Html :=
  mkScan (f (html s)) (mathjax_tag_stack s) (html_tag_stack s).
Definition set_mathjax_tag_stack {Html} (l : list Tag) (s : scan Html) : scan Html :=
  mkScan (html s) l (html_tag_stack s).
Definition set_html_tag_stack {Html} (l : list Tag) (s : scan Html) : scan Html :=
  mkScan (html s) (mathjax_tag_stack s) l.

(** [(not tested) or indexed[-1].closed], with Python's short circuit. *)
Definition empty_or_top_closed (tested indexed : list Tag) : outcome bool :=
  if is_empty tested then Return true
  else match top indexed with
       | Return t => Return (closed t)
       | Raise e => Raise e
       end.

(** Lines 142-148. *)
Definition scan_mathjax `{Collaborators Html} (tag : Tag) : M (scan Html) unit :=
  s <- get ;;
  c <- lift (empty_or_top_closed (mathjax_tag_stack s) (mathjax_tag_stack s)) ;;
  if c : bool then
    l <- lift (pop (mathjax_tag_stack s)) ;;
    modify (set_mathjax_tag_stack l)
  else
    modify (set_mathjax_tag_stack (append (mathjax_tag_stack s) (tag_call tag))).

(** Lines 150-168. *)
Definition scan_html `{Collaborators Html} (tag : Tag) : M (scan Html) unit :=
  s <- get ;;
  c <- lift (empty_or_top_closed (html_tag_stack s) (html_tag_stack s)) ;;
  if c : bool then
    (if broken tag then modify (set_html (tag_delete tag)) else ret tt) ;;;
    l <- lift (pop (html_tag_stack s)) ;;
    modify (set_html_tag_stack l)
  else
    g <- lift (match math_tag_stack with
               | Some g => Return g
               | None => Raise NameError
               end) ;;
    c' <- lift (empty_or_top_closed g (mathjax_tag_stack s)) ;;
    if c' : bool then
      modify (set_html_tag_stack (append (html_tag_stack s) (tag_call tag)))
    else
      let tag' := mark_broken tag in
      modify (set_html (tag_replace tag')) ;;;
      modify (set_html_tag_stack (append (html_tag_stack s) (tag_call tag'))).

(** The body of the [for] loop: two independent [if isinstance] tests. *)
Definition scan_tag `{Collaborators Html} (tag : Tag) : M (scan Html) unit :=
  (if isinstance tag MathJaxTag then scan_mathjax tag else ret tt) ;;;
  (if isinstance tag HtmlTag then scan_html tag else ret tt).

(** Lines 170-171. *)
Definition end_of_scan {Html} : M (scan Html) unit :=
  s <- get ;;
  if is_empty (html_tag_stack s) && is_empty (mathjax_tag_stack s)
  then raise BrokenHtmlCode
  else ret tt.

(** Lines 137-138: both stacks start empty. *)
Definition start {Html} (parent_html : Html) : scan Html := mkScan parent_html [] [].

(** The loop, the final test, and the text handed to [replace_with] on
    line 173. *)
Definition _replace_tag_on `{Collaborators Html} (tags : list Tag) : M (scan Html) Html :=
  for_each tags scan_tag ;;;
  end_of_scan ;;;
  s <- get ;;
  ret (html s).

Definition _replace_tag `{Collaborators Html} (parent_html : Html)
  : outcome Html * scan Html :=
  _replace_tag_on (match_tag parent_html) (start parent_html).

End Reconciler.

(* ===================================================================== *)
(** ** [pathlib] paths *)
(* ===================================================================== *)

Module Paths.

(** A path is the tuple of its [parts], as [pathlib] keeps it on POSIX:
    the root ([/] or [//]) when the path is absolute, then the components.
    The empty list is [Path('.')]. *)
Definition Path : Type := list string.

(** [s.split('/')] *)
Fixpoint split_sep (s : string) : list string :=
  match s with
  | EmptyString => [EmptyString]
  | String c s' =>
      if Ascii.eqb c "/"%char then EmptyString :: split_sep s'
      else match split_sep s' with
           | x :: xs => String c x :: xs
           | [] => [String c EmptyString]
           end
  end.

(** ['/' in s] *)
Fixpoint has_sep (s : string) : bool :=
  match s with
  | EmptyString => false
  | String c s' => Ascii.eqb c "/"%char || has_sep s'
  end.

(** The components that parsing keeps: neither empty nor [.]. *)
Definition is_component (x : string) : bool :=
  negb (String.eqb x EmptyString) && negb (String.eqb x ".").

Definition components (s : string) : list string :=
  List.filter is_component (split_sep s).

(** The root of a segment: [//] for exactly two leading separators, [/]
    for one or for more than two, none otherwise. *)
Definition root_of (s : string) : string :=
  match s with
  | String c0 s0 =>
      if Ascii.eqb c0 "/"%char then
        match s0 with
        | String c1 s1 =>
            if Ascii.eqb c1 "/"%char then
              match s1 with
              | String c2 _ => if Ascii.eqb c2 "/"%char then "/" else "//"
              | EmptyString => "//"
              end
            else "/"
        | EmptyString => "/"
        end
      else EmptyString
  | EmptyString => EmptyString
  end.

Definition is_root (x : string) : bool :=
  String.eqb x "/" || String.eqb x "//".

(** [path.name]: the last part, unless the path is only a root. *)
Definition name (p : Path) : string :=
  match p with
  | [x] => if is_root x then EmptyString else x
  | _ => default EmptyString (last p)
  end.

(** [path.parent]: a root is its own parent. *)
Definition parent (p : Path) : Path :=
  match p with
  | [x] => if is_root x then p else []
  | _ => removelast p
  end.

(** [path / segment]: the segment is parsed into its parts; a segment
    with a root replaces the path, any other one extends it. *)
Definition joinpath (p : Path) (segment : string) : Path :=
  match root_of segment with
  | EmptyString => p ++ components segment
  | root => root :: components segment
  end.

(** [s[:i]] and [s[i:]] *)
Fixpoint str_take (i : nat) (s : string) : string :=
  match i, s with
  | S i', String c s' => String c (str_take i' s')
  | _, _ => EmptyString
  end.

Fixpoint str_drop (i : nat) (s : string) : string :=
  match i, s with
  | S i', String _ s' => str_drop i' s'
  | _, _ => s
  end.

(** [s.rfind('.')], [None] for Python's [-1]. *)
Fixpoint rfind_dot (s : string) : option nat :=
  match s with
  | EmptyString => None
  | String c s' =>
      match rfind_dot s' with
      | Some i => Some (S i)
      | None => if Ascii.eqb c "."%char then Some 0 else None
      end
  end.

(** [pathlib]'s test [0 < i < len(name) - 1] on [i = name.rfind('.')]:
    the position at which the extension of [name] starts, if it has one. *)
Definition suffix_start (nm : string) : option nat :=
  match rfind_dot nm with
  | Some i => if (0 <? i) && (i <? String.length nm - 1) then Some i else None
  | None => None
  end.

(** [PurePath.suffix] and [PurePath.stem], on the name of the path. *)
Definition suffix_of (nm : string) : string :=
  match suffix_start nm with
  | Some i => str_drop i nm
  | None => EmptyString
  end.

Definition stem_of (nm : string) : string :=
  match suffix_start nm with
  | Some i => str_take i nm
  | None => nm
  end.

Definition suffix (p : Path) : string := suffix_of (name p).
Definition stem (p : Path) : string := stem_of (name p).

End Paths.

Import Paths.

(* ===================================================================== *)
(** ** Files and [Corrector.process] *)
(* ===================================================================== *)

Module Files.

Definition bytes : Type := list byte.

Inductive mode : Type := rb | wb.

(** An open-file object: where it points, how it was opened, whether
    [close] was called on it. *)
Record handle : Type := mkHandle {
  h_path : Path;
  h_mode : mode;
  h_closed : bool
}.

(** The file system (contents by path) and every file object created so
    far, in order of creation; a file object is named by its position. *)
Record os_state : Type := mkOs {
  fs : gmap Path bytes;
  handles : list handle
}.

Definition fd : Type := nat.

(** [open(path, 'rb')] needs the file; [open(path, 'wb')] creates it or
    truncates it to zero length. *)
Definition open_ (path : Path) (m : mode) : M os_state fd :=
  fun s =>
    match m with
    | rb =>
        match fs s !! path with
        | Some _ => (Return (length (handles s)),
                     mkOs (fs s) (handles s ++ [mkHandle path rb false]))
        | None => (Raise FileNotFoundError, s)
        end
    | wb => (Return (length (handles s)),
             mkOs (<[path := []]> (fs s)) (handles s ++ [mkHandle path wb false]))
    end.

(** [f.close()] *)
Definition close (f : fd) : M os_state unit :=
  modify (fun s =>
    mkOs (fs s)
         (alter (fun h => mkHandle (h_path h) (h_mode h) true) f (handles s))).

(** [f.read()]: the whole content, from an open handle in read mode. *)
Definition read (f : fd) : M os_state bytes :=
  fun s =>
    match handles s !! f with
    | Some (mkHandle p rb false) =>
        match fs s !! p with
        | Some data => (Return data, s)
        | None => (Raise FileNotFoundError, s)
        end
    | _ => (Raise UnsupportedOperation, s)
    end.

(** [f.write(data)]: appended to the file, through an open handle in
    write mode. *)
Definition write (f : fd) (data : bytes) : M os_state unit :=
  fun s =>
    match handles s !! f with
    | Some (mkHandle p wb false) =>
        (Return tt, mkOs (<[p := default [] (fs s !! p) ++ data]> (fs s)) (handles s))
    | _ => (Raise UnsupportedOperation, s)
    end.

(** A [Corrector] instance in its environment: the attributes [infile_]
    and [outfile_] exist once lines 86-87 have run. *)
Record corrector : Type := mkCorrector {
  os : os_state;
  infile_ : option fd;
  outfile_ : option fd
}.

Definition set_infile_ (f : fd) (c : corrector) : corrector :=
  mkCorrector (os c) (Some f) (outfile_ c).
Definition set_outfile_ (f : fd) (c : corrector) : corrector :=
  mkCorrector (os c) (infile_ c) (Some f).

(** Run a file operation in the environment of the instance. *)
Definition in_os {A} (m : M os_state A) : M corrector A :=
  fun c => let '(r, s') := m (os c) in (r, mkCorrector s' (infile_ c) (outfile_ c)).

(** [self.<attr>] *)
Definition getattr (attr : corrector -> option fd) : M corrector fd :=
  fun c => match attr c with
           | Some f => (Return f, c)
           | None => (Raise AttributeError, c)
           end.

(** The abstract method of [Corrector] (lines 95-97): each subclass
    supplies [_process], which works on [self.infile_] and
    [self.outfile_]. *)
Class Processor : Type := { _process : M corrector unit }.

(** Lines 79-87. *)
Definition open_files (infile_path outfile_path : Path) : M corrector unit :=
  io <- (if decide (infile_path = outfile_path) then
           infile <- in_os (open_ infile_path wb) ;;
           ret (infile, infile)
         else
           infile <- in_os (open_ infile_path rb) ;;
           outfile <- in_os (open_ outfile_path wb) ;;
           ret (infile, outfile)) ;;
  modify (set_infile_ (fst io)) ;;;
  modify (set_outfile_ (snd io)).

(** Lines 91-93. *)
Definition close_files (infile_path outfile_path : Path) : M corrector unit :=
  outfile <- getattr outfile_ ;;
  in_os (close outfile) ;;;
  if decide (infile_path <> outfile_path) then
    infile <- getattr infile_ ;;
    in_os (close infile)
  else ret tt.

(** [Corrector.process], lines 69-93. *)
Definition Corrector_process `{Processor} (infile_path outfile_path : Path)
  : M corrector unit :=
  open_files infile_path outfile_path ;;;
  _process ;;;
  close_files infile_path outfile_path.

(** A [_process] of the shape of lines 113-122: the input handle is read,
    the content corrected (which may raise), and the result written to the
    output handle as the last statement. *)
Definition read_correct_write (correct : bytes -> outcome bytes) : M corrector unit :=
  infile <- getattr infile_ ;;
  data <- in_os (read infile) ;;
  content <- lift (correct data) ;;
  outfile <- getattr outfile_ ;;
  in_os (write outfile content).

(** [os.remove(path)] on this file system. *)
Definition remove_file (path : Path) : M os_state unit :=
  fun s =>
    match fs s !! path with
    | Some _ => (Return tt, mkOs (delete path (fs s)) (handles s))
    | None => (Raise FileNotFoundError, s)
    end.

End Files.

Import Files.

(* ===================================================================== *)
(** ** [FileManager] *)
(* ===================================================================== *)

Module Manager.

(** A processor is its [process(infile_path, outfile_path)] method, acting
    on the environment [World] of the run. *)
Definition processor (World : Type) : Type := Path -> Path -> M World unit.

(** The attributes set by [__init__]. *)
Record FileManager (World : Type) : Type := mkFileManager {
  root_dir : Path;
  file_match_pattern : string;
  processors : list (processor World);
  delete_origin : bool;
  file_suffix : string
}.
Arguments mkFileManager {World} root_dir file_match_pattern processors
  delete_origin file_suffix.
Arguments root_dir {World} f.
Arguments file_match_pattern {World} f.
Arguments processors {World} f.
Arguments delete_origin {World} f.
Arguments file_suffix {World} f.

(** [not file_suffix] for an argument that is [None] or a string. *)
Definition falsy (s : option string) : bool :=
  match s with
  | None | Some EmptyString => true
  | Some _ => false
  end.

(** Lines 31-41, with the defaults [delete_origin=False] and
    [file_suffix=None] left to the caller; the [else] of line 40 is read
    with the colon it lacks.  Line 34 stores the compiled pattern: the
    field [file_match_pattern] keeps its source, for a pattern that
    [re.compile] accepts (see [construct] for the others). *)
Definition __init__ {World} (root_dir : Path) (file_match_pattern : string)
    (processors : list (processor World)) (delete_origin : bool)
    (file_suffix : option string) : FileManager World :=
  mkFileManager root_dir file_match_pattern processors delete_origin
    (if falsy file_suffix && negb delete_origin then "fixed"
     else if falsy file_suffix then EmptyString
     else default EmptyString file_suffix).

(** What [process] does that can be observed from outside: the calls of
    [processor.process] and of [os.remove], in order. *)
Inductive event : Type :=
| Processed (infile_path outfile_path : Path)
| Removed (path : Path).

Record run (World : Type) : Type := mkRun {
  world : World;
  trace : list event
}.
Arguments mkRun {World} world trace.
Arguments world {World} r.
Arguments trace {World} r.

(** The module [os], which the file uses and does not import. *)
Class OS (World : Type) : Type := { os_remove : Path -> M World unit }.

Definition in_world {World A} (ev : event) (m : M World A) : M (run World) A :=
  fun r => let '(res, w') := m (world r) in (res, mkRun w' (trace r ++ [ev])).

(** Line 54. *)
Definition outfile_name {World} (self : FileManager World) (path : Path) : string :=
  name path +:+ file_suffix self +:+ suffix path.

(** Reading the local variable [infile_path], which is assigned for the
    first time on line 60. *)
Definition read_local {S} (v : option Path) : M S Path :=
  match v with
  | Some p => ret p
  | None => raise UnboundLocalError
  end.

(** Lines 58-60; returns the binding of [infile_path] after the loop. *)
Fixpoint run_processors {World} (ps : list (processor World))
    (infile_path outfile_path : Path) : M (run World) Path :=
  match ps with
  | [] => ret infile_path
  | p :: ps' =>
      in_world (Processed infile_path outfile_path) (p infile_path outfile_path) ;;;
      run_processors ps' outfile_path outfile_path
  end.

(** Line 55, from the binding of [infile_path] at that point. *)
Definition outfile_path_of {World} (self : FileManager World)
    (infile_path path : Path) : Path :=
  joinpath (parent infile_path) (outfile_name self path).

(** Lines 54-63: one iteration of the loop over the matched files.  The
    assignment of line 56 binds [inffile_path], which nothing reads. *)
Definition process_file `{OS World} (self : FileManager World)
    (infile_path : option Path) (path : Path) : M (run World) (option Path) :=
  ip <- read_local infile_path ;;
  let outfile_path := outfile_path_of self ip path in
  ip' <- run_processors (processors self) ip outfile_path ;;
  (if bool_decide (path <> outfile_path) && delete_origin self
   then in_world (Removed path) (os_remove path)
   else ret tt) ;;;
  ret (Some ip').

(** The loop of line 53 over the paths that [files()] yields, from a
    binding of the local [infile_path] to its binding after the loop. *)
Fixpoint process_files `{OS World} (self : FileManager World)
    (infile_path : option Path) (files : list Path)
  : M (run World) (option Path) :=
  match files with
  | [] => ret infile_path
  | path :: rest =>
      ip' <- process_file self infile_path path ;;
      process_files self ip' rest
  end.

(** [FileManager(...)]: the call of the class.  Line 34 compiles the
    pattern before anything is stored and raises [re.error] when the
    string is no regular expression; [compiles] is the judgement of the
    [re] module. *)
Definition construct {World} (compiles : string -> bool) (root_dir : Path)
    (file_match_pattern : string) (processors : list (processor World))
    (delete_origin : bool) (file_suffix : option string)
  : outcome (FileManager World) :=
  if compiles file_match_pattern
  then Return (__init__ root_dir file_match_pattern processors delete_origin
                 file_suffix)
  else Raise re_error.

(** What [Path.match] is handed: a string, which it reads as a glob
    pattern, or a compiled regular expression, which it rejects. *)
Inductive match_arg : Type :=
| glob_pattern (s : string)
| compiled_pattern (source : string).

(** The directory tree.  [os_walk] is [os.walk], the list of
    [(dirpath, dirnames, filenames)] triples of a top-down walk; the file
    never imports [os], and [None] stands for that name being bound
    nowhere.  [glob_match] is [Path.match] on a string. *)
Class Walk : Type := {
  os_walk : option (Path -> list (Path * list string * list string));
  glob_match : Path -> string -> bool
}.

(** [path.match(pattern)] *)
Definition path_match `{Walk} (path : Path) (pattern : match_arg) : outcome bool :=
  match pattern with
  | glob_pattern s => Return (glob_match path s)
  | compiled_pattern _ => Raise TypeError
  end.

(** Lines 43-49.  The generator runs interleaved with the loop that
    consumes it: [body] is what the consumer does at each [yield]. *)
Definition files `{Walk} {World S} (self : FileManager World)
    (body : Path -> M S unit) : M S unit :=
  match os_walk with
  | None => raise NameError
  | Some walk =>
      for_each (walk (root_dir self)) (fun triple =>
        for_each triple.2 (fun name =>
          let path := joinpath triple.1.1 name in
          matched <- lift (path_match path
                             (compiled_pattern (file_match_pattern self))) ;;
          if matched : bool then body path else ret tt))
  end.

(** One iteration of the loop of line 53, on the local [infile_path] and
    the environment. *)
Definition iteration `{OS World} (self : FileManager World) (path : Path)
  : M (option Path * run World) unit :=
  fun '(infile_path, r) =>
    match process_file self infile_path path r with
    | (Return infile_path', r') => (Return tt, (infile_path', r'))
    | (Raise e, r') => (Raise e, (infile_path, r'))
    end.

(** [FileManager.process], lines 51-63: on entry no local is bound. *)
Definition process `{OS World} `{Walk} (self : FileManager World)
  : M (run World) unit :=
  fun r =>
    let '(res, (_, r')) := files self (iteration self) (None, r) in
    (res, r').

End Manager.

Import Reconciler Manager.

(* ===================================================================== *)
(** ** Concrete runs *)
(* ===================================================================== *)

Module Examples.

Definition a_html : Path := ["root"; "a.html"].
Definition b_html : Path := ["root"; "b.html"].
Definition a_out : Path := ["root"; "a.htmlfixed.html"].

(** Two matched files of one byte each, no file object created yet. *)
Definition disk : os_state :=
  mkOs (<[a_html := [x61]]> (<[b_html := [x62]]> ∅)) [].

Definition fresh : corrector := mkCorrector disk None None.

(** The state once [a.html] is open for reading and [a.htmlfixed.html]
    for writing. *)
Definition opened : corrector :=
  mkCorrector
    (mkOs (<[a_out := []]> (fs disk))
          [mkHandle a_html rb false; mkHandle a_out wb false])
    (Some 0) (Some 1).

(** A correction that stops with the exception of line 171 before it
    touches any handle. *)
Definition raising : Processor := {| _process := raise BrokenHtmlCode |}.

(** A correction of the shape of lines 113-122 whose repair raises the
    exception of line 171. *)
Definition failing : Processor :=
  {| _process := read_correct_write (fun _ => Raise BrokenHtmlCode) |}.

(** A correction that changes nothing. *)
Definition copying : Processor := {| _process := read_correct_write Return |}.

(** [os.remove] in the environment of a corrector. *)
Definition os_corrector : OS corrector :=
  {| os_remove path := in_os (remove_file path) |}.

(** A manager with one failing corrector, suffix [fixed], origin kept. *)
Definition keeping : FileManager corrector :=
  __init__ ["root"] ".*[.]html" [@Corrector_process failing] false None.

(** A manager without processors that deletes the origin. *)
Definition deleting : FileManager corrector :=
  __init__ ["root"] ".*[.]html" [] true (Some "-fixed").

End Examples.

(* ===================================================================== *)
(** ** The claims that the code does not satisfy, as stated *)
(* ===================================================================== *)

Module Stated.

(** "No output is written for a file whose correction raises": after a
    failed call the output path holds what it held before; in-place, the
    output path is the original file. *)
Definition no_output_on_error (P : Processor) (infile_path outfile_path : Path)
    (c : corrector) : Prop :=
  forall e c',
    Corrector_process infile_path outfile_path c = (Raise e, c') ->
    fs (os c') !! outfile_path = fs (os c) !! outfile_path.

End Stated.

(* ===================================================================== *)
(** ** [MathJaxCorrector]: the traversal and [_process] *)
(* ===================================================================== *)

Module MathJaxCorrector.

(** The document tree, which belongs to BeautifulSoup: [Doc] is the
    document being edited in place, [Node] names a tag in it.  Line 125
    reads the attribute [tag_kws], while [__init__] assigns [find_kws] and
    [soup_kws] (lines 110-111); [None] stands for "never set".
    A tag has no method [findall]: BeautifulSoup reads [tag.findall] as the
    search for a child tag of that name, which gives [None] when there is
    none; when there is one, calling it runs its [find_all].  So
    [findall tag d] is [None], or what the call of the child returns. *)
Class Document (Doc Node Html Kws : Type) : Type := {
  tag_kws : option Kws;
  findall : Node -> Doc -> option (Kws -> list Node);  (* [tag.findall] *)
  prettify : Node -> Doc -> Html;                      (* [parent_tag.prettify()] *)
  replace_with : Html -> Doc -> Doc                    (* line 173 *)
}.

(** [self._replace_tag(tag)] on the document: line 135, the scan, and the
    replacement of line 173 when the scan returns. *)
Definition _replace_tag_in `{Collaborators Html} `{!Document Doc Node Html Kws}
    (parent_tag : Node) : M Doc unit :=
  fun d =>
    match _replace_tag (prettify parent_tag d) with
    | (Return html', _) => (Return tt, replace_with html' d)
    | (Raise e, _) => (Raise e, d)
    end.

(** A call either ends within the nesting depth that the interpreter
    allows, or is cut off by its recursion limit. *)
Inductive nested (A : Type) : Type :=
| Within (r : outcome A)
| RecursionError.
Arguments Within {A} r.
Arguments RecursionError {A}.

(** Lines 124-132, with [depth] nested calls still allowed.  On line 125
    the callee [tag.findall] is evaluated first, then the argument
    [self.tag_kws], then the call is made. *)
Fixpoint _correct_tag `{Collaborators Html} `{!Document Doc Node Html Kws}
    (depth : nat) (tag : Node) (d : Doc) : nested unit * Doc :=
  match depth with
  | 0 => (RecursionError, d)
  | S depth' =>
      match tag_kws, findall tag d with
      | None, _ => (Within (Raise AttributeError), d)
      | Some _, None => (Within (Raise TypeError), d)
      | Some kws, Some find_all =>
          let tags := find_all kws in
          if is_empty tags then
            let '(r, d') := _replace_tag_in tag d in (Within r, d')
          else
            (fix each (ts : list Node) (d : Doc) : nested unit * Doc :=
               match ts with
               | [] => (Within (Return tt), d)
               | t :: ts' =>
                   match _correct_tag depth' t d with
                   | (Within (Return tt), d') => each ts' d'
                   | stop => stop
                   end
               end) tags d
      end
  end.

(** The collaborators of [_process]: the global [soup_kws] read on line
    115 ([None]: bound nowhere), the parser, the traversal of line 118 as
    the document it leaves or the exception it raises, and the serializer
    of line 121. *)
Class Soup (Node Kws : Type) : Type := {
  soup_kws : option Kws;
  BeautifulSoup : bytes -> Kws -> Node;
  correct : Node -> outcome Node;
  prettify_document : Node -> bytes
}.

(** Lines 113-122.  The parser reads the whole input handle. *)
Definition _process `{Soup Node Kws} : M corrector unit :=
  infile <- getattr infile_ ;;
  kws <- lift (match soup_kws with
               | Some kws => Return kws
               | None => Raise NameError
               end) ;;
  data <- in_os (read infile) ;;
  dom_ <- lift (correct (BeautifulSoup data kws)) ;;
  let content := prettify_document dom_ in
  outfile <- getattr outfile_ ;;
  in_os (write outfile content).

(** [MathJaxCorrector] as a processor. *)
Definition processor `{Soup Node Kws} : Processor := {| Files._process := _process |}.

End MathJaxCorrector.

(* ===================================================================== *)
(** ** More concrete runs *)
(* ===================================================================== *)

Module MoreExamples.

(** No collaborator bound, no attribute set. *)
Definition unbound : Collaborators string :=
  {| match_tag := fun _ => [HtmlOpen "p"; HtmlClose "p"];
     tag_call := fun t => t;
     tag_delete := fun _ h => h;
     tag_replace := fun _ h => h;
     math_tag_stack := None |}.

(** A parser and serializer that keep the bytes, with a traversal that
    changes nothing. *)
Definition identity_soup : MathJaxCorrector.Soup bytes unit :=
  {| MathJaxCorrector.soup_kws := Some tt;
     MathJaxCorrector.BeautifulSoup := fun data _ => data;
     MathJaxCorrector.correct := Return;
     MathJaxCorrector.prettify_document := fun dom => dom |}.

Definition missing : Path := ["root"; "c.html"].

(** A manager whose suffix contains a separator, and one that ends in
    the component [.]; both delete the origin. *)
Definition nesting : FileManager corrector :=
  __init__ ["root"] ".*[.]html" [] true (Some "/x").
Definition dotted : FileManager corrector :=
  __init__ ["root"] ".*" [] true (Some "/.").

(** A root directory that holds [a.html] and [b.html], with [os] bound. *)
Definition two_files : Walk :=
  {| os_walk := Some (fun _ => [(["root"], [], ["a.html"; "b.html"])]);
     glob_match := fun _ _ => true |}.

(** The file as it stands: [os] is not imported. *)
Definition not_imported : Walk :=
  {| os_walk := None; glob_match := fun _ _ => true |}.

(** A manager with one copying corrector, suffix [fixed], origin kept. *)
Definition copier : FileManager corrector :=
  __init__ ["root"] ".*[.]html" [@Corrector_process Examples.copying] false None.

(** A matched file in another directory. *)
Definition elsewhere : Path := ["root"; "sub"; "b.html"].

(** The state in which a copying [_process] leaves [Examples.opened]. *)
Definition copied : corrector :=
  mkCorrector
    (mkOs (<[Examples.a_out := [x61]]> (fs Examples.disk))
          (handles (os Examples.opened)))
    (Some 0) (Some 1).

End MoreExamples.

(* ===================================================================== *)
(** * Results *)
(* ===================================================================== *)

(** ** The monad and the stack operations *)

Lemma bind_Return {S A B} (m : M S A) (k : A -> M S B) s a s' :
  m s = (Return a, s') -> bind m k s = k a s'.
Proof. intros E. unfold bind. by rewrite E. Qed.

Lemma bind_Raise {S A B} (m : M S A) (k : A -> M S B) s e s' :
  m s = (Raise e, s') -> bind m k s = (Raise e, s').
Proof. intros E. unfold bind. by rewrite E. Qed.

Lemma pop_append {A} (l : list A) x : pop (append l x) = Return l.
Proof.
  unfold pop, append. destruct (l ++ [x]) eqn:E.
  - by destruct l.
  - rewrite <- E. by rewrite removelast_last.
Qed.

Lemma top_append {A} (l : list A) x : top (append l x) = Return x.
Proof. unfold top, append. by rewrite last_snoc. Qed.

Lemma is_empty_append {A} (l : list A) x : is_empty (append l x) = false.
Proof. by destruct l. Qed.

(** ** The reconciler *)

Section ReconcilerFacts.
Context `{Collaborators Html}.

(** A math token met with a non-empty stack whose top is not closed is
    appended (lines 146-148). *)
Lemma scan_mathjax_top_open tag h ms t hs :
  closed t = false ->
  scan_mathjax tag (mkScan h (append ms t) hs)
  = (Return tt, mkScan h (append (append ms t) (tag_call tag)) hs).
Proof.
  intros Ht. unfold scan_mathjax, bind, get, lift, modify, empty_or_top_closed.
  cbn [mathjax_tag_stack]. by rewrite is_empty_append, top_append, Ht.
Qed.

(** A math token met with a closed top pops it (lines 143-145). *)
Lemma scan_mathjax_top_closed tag h ms t hs :
  closed t = true ->
  scan_mathjax tag (mkScan h (append ms t) hs) = (Return tt, mkScan h ms hs).
Proof.
  intros Ht. unfold scan_mathjax, bind, get, lift, modify, empty_or_top_closed.
  cbn [mathjax_tag_stack]. by rewrite is_empty_append, top_append, Ht, pop_append.
Qed.

(** An HTML token met with a closed top pops it, after deleting the token
    from the text when the token itself is flagged (lines 151-157). *)
Lemma scan_html_top_closed tag h ms hs t :
  closed t = true ->
  scan_html tag (mkScan h ms (append hs t))
  = (Return tt, mkScan (if broken tag then tag_delete tag h else h) ms hs).
Proof.
  intros Ht. unfold scan_html, bind, get, lift, modify, empty_or_top_closed.
  cbn [html_tag_stack]. rewrite is_empty_append, top_append, Ht.
  destruct (broken tag); cbn; by rewrite pop_append.
Qed.

(** An HTML token met with an open top reaches line 159, which raises
    when the global it reads is not bound. *)
Lemma scan_html_top_open_unbound tag h ms hs t :
  math_tag_stack = None -> closed t = false ->
  scan_html tag (mkScan h ms (append hs t))
  = (Raise NameError, mkScan h ms (append hs t)).
Proof.
  intros Hg Ht. unfold scan_html, bind, get, lift, modify, empty_or_top_closed.
  cbn [html_tag_stack]. by rewrite is_empty_append, top_append, Ht, Hg.
Qed.

(** When that global is bound, line 159 decides between the two pushes:
    an HTML token outside an open math region is pushed as it is
    (lines 160-161) ... *)
Lemma scan_html_top_open_outside_math tag h ms hs t g :
  math_tag_stack = Some g -> closed t = false ->
  empty_or_top_closed g ms = Return true ->
  scan_html tag (mkScan h ms (append hs t))
  = (Return tt, mkScan h ms (append (append hs t) (tag_call tag))).
Proof.
  intros Hg Ht Hc. unfold scan_html, bind, get, lift, modify, empty_or_top_closed.
  cbn [html_tag_stack mathjax_tag_stack].
  rewrite is_empty_append, top_append, Ht, Hg.
  unfold empty_or_top_closed in Hc. by rewrite Hc.
Qed.

(** ... and one inside an open math region is flagged, replaced in the
    text and pushed (lines 163-168). *)
Lemma scan_html_top_open_inside_math tag h ms hs t g :
  math_tag_stack = Some g -> closed t = false ->
  empty_or_top_closed g ms = Return false ->
  scan_html tag (mkScan h ms (append hs t))
  = (Return tt,
     mkScan (tag_replace (mark_broken tag) h) ms
            (append (append hs t) (tag_call (mark_broken tag)))).
Proof.
  intros Hg Ht Hc. unfold scan_html, bind, get, lift, modify, empty_or_top_closed.
  cbn [html_tag_stack mathjax_tag_stack].
  rewrite is_empty_append, top_append, Ht, Hg.
  unfold empty_or_top_closed in Hc. by rewrite Hc.
Qed.

(** With both stacks empty every token raises [IndexError]: either branch
    pops an empty list.  A flagged HTML token is deleted from the text
    first (line 154). *)
Lemma scan_tag_start tag h :
  scan_tag tag (start h)
  = (Raise IndexError,
     if isinstance tag HtmlTag && broken tag
     then start (tag_delete tag h) else start h).
Proof. by destruct tag as [[] n c []]. Qed.

Lemma _replace_tag_on_cons tag tags h :
  _replace_tag_on (tag :: tags) (start h)
  = (Raise IndexError,
     if isinstance tag HtmlTag && broken tag
     then start (tag_delete tag h) else start h).
Proof.
  unfold _replace_tag_on. apply bind_Raise. cbn [for_each].
  apply bind_Raise, scan_tag_start.
Qed.

Lemma _replace_tag_on_nil h :
  _replace_tag_on [] (start h) = (Raise BrokenHtmlCode, start h).
Proof. reflexivity. Qed.

End ReconcilerFacts.

Section ReconcilerClaims.
Context `{Collaborators Html}.

(** C1 (the code departs from the claim): the test of lines 170-171 raises
    the "Broken html code" exception exactly when both stacks are empty at
    the end of the scan, and lets the function go on exactly when one of
    them is not; whether the text was edited plays no part.  In particular
    a fragment without tokens, whose scan ends with both stacks empty,
    raises. *)
Theorem end_of_scan_raises_when_balanced :
  (forall s : scan Html,
      (is_empty (mathjax_tag_stack s) = true
       /\ is_empty (html_tag_stack s) = true
       /\ end_of_scan s = (Raise BrokenHtmlCode, s))
      \/ ((is_empty (mathjax_tag_stack s) = false
           \/ is_empty (html_tag_stack s) = false)
          /\ end_of_scan s = (Return tt, s)))
  /\ (forall h : Html,
         _replace_tag_on [] (start h) = (Raise BrokenHtmlCode, start h)).
Proof.
  split; [|reflexivity].
  intros [h ms hs]. unfold end_of_scan, bind, get; cbn.
  destruct ms, hs; cbn; eauto 6.
Qed.

(** C2 (the code departs from the claim): a math delimiter scanned first,
    hence with an empty [mathjax_tag_stack], is not pushed: line 145 pops
    the empty list, [IndexError] ends the scan at that token and both
    stacks are still empty. *)
Theorem math_token_on_empty_stack_raises n c b rest (h : Html) :
  _replace_tag_on (mkTag MathJaxTag n c b :: rest) (start h)
  = (Raise IndexError, start h).
Proof. by rewrite _replace_tag_on_cons. Qed.

(** C3 (the code departs from the claim): an HTML token scanned first,
    opening or closing, meets an empty [html_tag_stack] and pops nothing:
    line 157 raises [IndexError].  Before that, line 154 has deleted the
    token from the text when the scanned token itself carries the flag
    [broken]; no stack entry is consulted.  So no opening token is ever
    pushed, and a closing token never finds an entry to pop. *)
Theorem html_token_on_empty_stack_raises n c b rest (h : Html) :
  _replace_tag_on (mkTag HtmlTag n c b :: rest) (start h)
  = (Raise IndexError,
     if b then start (tag_delete (mkTag HtmlTag n c b) h) else start h).
Proof. by rewrite _replace_tag_on_cons. Qed.

(** In [<p></p>] the closing token is never reached. *)
Example open_close_pair_raises (h : Html) :
  _replace_tag_on [HtmlOpen "p"; HtmlClose "p"] (start h)
  = (Raise IndexError, start h).
Proof. reflexivity. Qed.

(** C4 (the code departs from the claim): an opening HTML token scanned
    while [html_tag_stack] is empty takes the branch of lines 151-157
    whatever [mathjax_tag_stack] holds: it is neither flagged, nor
    replaced in the text, nor pushed, and the pop of line 157 raises
    [IndexError]. *)
Theorem html_open_on_empty_stack_raises n (h : Html) ms :
  scan_tag (HtmlOpen n) (mkScan h ms [])
  = (Raise IndexError, mkScan h ms []).
Proof. reflexivity. Qed.

(** C8 (the code departs from the claim): [_replace_tag] returns on no
    fragment at all.  Whatever tokens [match_tag] finds, the call ends in
    [IndexError] (at the first token) or in the exception of line 171 (no
    token), with both stacks empty; so no fragment is mapped to itself and
    the repair cannot be run a second time on its own result. *)
Theorem _replace_tag_never_returns (parent_html : Html) :
  exists e s,
    _replace_tag parent_html = (Raise e, s)
    /\ mathjax_tag_stack s = [] /\ html_tag_stack s = []
    /\ (e = IndexError \/ e = BrokenHtmlCode).
Proof.
  unfold _replace_tag. destruct (match_tag parent_html) as [|tag tags].
  - exists BrokenHtmlCode, (start parent_html). rewrite _replace_tag_on_nil. eauto.
  - rewrite _replace_tag_on_cons. eexists _, _. split; [reflexivity|].
    destruct (isinstance tag HtmlTag && broken tag); eauto.
Qed.

(** The fragment [<p><em>x</em></p>], which needs no repair, stops at its
    first token. *)
Example genuine_nested_tags_raise (h : Html) :
  _replace_tag_on [HtmlOpen "p"; HtmlOpen "em"; HtmlClose "em"; HtmlClose "p"]
                  (start h)
  = (Raise IndexError, start h).
Proof. reflexivity. Qed.

End ReconcilerClaims.

(** ** Paths and the name of the output file *)

Lemma append_String c (a b : string) : String c a +:+ b = String c (a +:+ b).
Proof. reflexivity. Qed.

Lemma append_empty_r (a : string) : a +:+ EmptyString = a.
Proof. induction a as [|c a IH]; [done|]. by rewrite append_String, IH. Qed.

Lemma append_assoc (a b c : string) : (a +:+ b) +:+ c = a +:+ (b +:+ c).
Proof. induction a as [|x a IH]; [done|]. by rewrite !append_String, IH. Qed.

Lemma str_take_drop i s : str_take i s +:+ str_drop i s = s.
Proof.
  revert s. induction i as [|i IH]; intros [|c s]; try reflexivity.
  cbn [str_take str_drop]. by rewrite append_String, IH.
Qed.

(** [stem + suffix == name], as in [pathlib]. *)
Lemma stem_suffix nm : stem_of nm +:+ suffix_of nm = nm.
Proof.
  unfold stem_of, suffix_of. destruct (suffix_start nm).
  - apply str_take_drop.
  - apply append_empty_r.
Qed.

Section OutputName.
Context {World : Type}.

(** C7 (the code departs from the claim): line 54 starts from [path.name],
    which still carries the extension, so the output name is the stem,
    the extension, the configured suffix and the extension again: the
    suffix comes after the extension and the extension appears twice. *)
Theorem outfile_name_repeats_extension (self : FileManager World) (path : Path) :
  outfile_name self path
  = stem path +:+ suffix path +:+ file_suffix self +:+ suffix path.
Proof.
  unfold outfile_name, stem, suffix.
  by rewrite <- (append_assoc (stem_of _)), stem_suffix.
Qed.

(** With the defaults of [__init__] the file [a.html] is written to
    [a.htmlfixed.html], not to [afixed.html]. *)
Example outfile_name_a_html (ps : list (processor World)) :
  outfile_name (__init__ ["root"] ".*[.]html" ps false None) ["root"; "a.html"]
  = "a.htmlfixed.html"
  /\ stem ["root"; "a.html"] +:+ "fixed" +:+ suffix ["root"; "a.html"]
     = "afixed.html".
Proof. split; reflexivity. Qed.

End OutputName.

(** ** [Corrector.process] *)

Section CorrectorFacts.
Context `{Processor}.

(** The state in which [_process] starts when the two paths are equal. *)
Lemma open_files_in_place p c :
  open_files p p c
  = (Return tt,
     mkCorrector (mkOs (<[p := []]> (fs (os c)))
                       (handles (os c) ++ [mkHandle p wb false]))
                 (Some (length (handles (os c))))
                 (Some (length (handles (os c))))).
Proof.
  unfold open_files. rewrite decide_True by done. reflexivity.
Qed.

(** The state in which [_process] starts when the paths differ and the
    input exists. *)
Lemma open_files_derived infile_path outfile_path c :
  infile_path <> outfile_path ->
  is_Some (fs (os c) !! infile_path) ->
  open_files infile_path outfile_path c
  = (Return tt,
     mkCorrector (mkOs (<[outfile_path := []]> (fs (os c)))
                       (handles (os c) ++ [mkHandle infile_path rb false]
                                     ++ [mkHandle outfile_path wb false]))
                 (Some (length (handles (os c))))
                 (Some (S (length (handles (os c)))))).
Proof.
  intros Hne [data Hdata]. unfold open_files. rewrite decide_False by done.
  unfold bind, in_os, open_, modify, ret; cbn. rewrite Hdata; cbn.
  rewrite length_app, <- app_assoc; cbn. by rewrite Nat.add_1_r.
Qed.

(** A handle opened for writing cannot be read. *)
Lemma read_write_only p c :
  let n := length (handles c) in
  read n (mkOs (<[p := []]> (fs c)) (handles c ++ [mkHandle p wb false]))
  = (Raise UnsupportedOperation,
     mkOs (<[p := []]> (fs c)) (handles c ++ [mkHandle p wb false])).
Proof.
  intros n. unfold read; cbn [handles].
  by rewrite lookup_app_r, Nat.sub_diag by done.
Qed.

(** C10: when the two paths are equal, [Corrector.process] creates exactly
    one file object, in mode ['wb'], and stores it in both [infile_] and
    [outfile_]; opening it has truncated the file, and [_process], the only
    code that can read, starts from that state. *)
Theorem in_place_opens_one_truncating_handle p c :
  exists c1,
    open_files p p c = (Return tt, c1)
    /\ handles (os c1) = handles (os c) ++ [mkHandle p wb false]
    /\ infile_ c1 = Some (length (handles (os c)))
    /\ outfile_ c1 = Some (length (handles (os c)))
    /\ fs (os c1) !! p = Some []
    /\ Corrector_process p p c = (_process ;;; close_files p p) c1.
Proof.
  eexists. split; [apply open_files_in_place|]. cbn.
  rewrite lookup_insert_eq. repeat split.
  unfold Corrector_process. by rewrite (bind_Return _ _ _ _ _ (open_files_in_place p c)).
Qed.

(** C6, as amended: when the paths differ, the input exists, and
    [_process] raises before it has written anything, [Corrector.process]
    raises the same exception without closing or writing; the original
    file is unchanged and the output path holds the empty file that
    opening it for writing created. *)
Theorem failed_correction_leaves_empty_output
    infile_path outfile_path c c1 e c1' :
  infile_path <> outfile_path ->
  is_Some (fs (os c) !! infile_path) ->
  open_files infile_path outfile_path c = (Return tt, c1) ->
  _process c1 = (Raise e, c1') ->
  fs (os c1') = fs (os c1) ->
  Corrector_process infile_path outfile_path c = (Raise e, c1')
  /\ fs (os c1') !! infile_path = fs (os c) !! infile_path
  /\ fs (os c1') !! outfile_path = Some []
  /\ fs (os c1') = <[outfile_path := []]> (fs (os c)).
Proof.
  intros Hne Hin Hopen Hraise Hfs.
  rewrite (open_files_derived _ _ _ Hne Hin) in Hopen.
  injection Hopen as <-. cbn in Hfs.
  split; [|rewrite Hfs; split_and!].
  - unfold Corrector_process.
    rewrite (bind_Return _ _ _ _ _ (open_files_derived _ _ _ Hne Hin)).
    by apply bind_Raise.
  - by rewrite lookup_insert_ne.
  - by rewrite lookup_insert_eq.
  - done.
Qed.

End CorrectorFacts.

Import Examples.

(** With a derived name a correction that succeeds is written out and
    both handles are closed ... *)
Example copy_to_derived_name :
  @Corrector_process copying a_html a_out fresh
  = (Return tt,
     mkCorrector
       (mkOs (<[a_out := [x61]]> (fs disk))
             [mkHandle a_html rb true; mkHandle a_out wb true])
       (Some 0) (Some 1)).
Proof. reflexivity. Qed.

(** ... while in place the same correction cannot read its input, which
    is already empty. *)
Example copy_in_place :
  @Corrector_process copying a_html a_html fresh
  = (Raise UnsupportedOperation,
     mkCorrector
       (mkOs (<[a_html := []]> (fs disk)) [mkHandle a_html wb false])
       (Some 0) (Some 0)).
Proof. reflexivity. Qed.

Lemma failed_correction_witness :
  @Corrector_process failing a_html a_out fresh = (Raise BrokenHtmlCode, opened)
  /\ fs (os opened) !! a_html = fs (os fresh) !! a_html
  /\ fs (os opened) !! a_out = Some []
  /\ fs (os opened) = <[a_out := []]> (fs (os fresh)).
Proof.
  apply (@failed_correction_leaves_empty_output failing a_html a_out fresh
           opened BrokenHtmlCode opened).
  - discriminate.
  - exists [x61]. reflexivity.
  - reflexivity.
  - reflexivity.
  - reflexivity.
Defined.

(** C6, as stated, fails.  In place, a correction that raises leaves the
    original file empty; with a derived name, it leaves an empty output
    file where there was none. *)
Lemma output_written_on_error :
  ~ Stated.no_output_on_error raising a_html a_html fresh
  /\ ~ Stated.no_output_on_error failing a_html a_out fresh.
Proof.
  split; intros Hclaim.
  - specialize (Hclaim BrokenHtmlCode
      (mkCorrector (mkOs (<[a_html := []]> (fs disk)) [mkHandle a_html wb false])
                   (Some 0) (Some 0)) eq_refl).
    vm_compute in Hclaim. discriminate.
  - specialize (Hclaim BrokenHtmlCode opened eq_refl).
    vm_compute in Hclaim. discriminate.
Qed.

(** ** [FileManager.process] *)

Section ManagerFacts.
Context `{OS World}.
Implicit Types (self : FileManager World) (r : run World) (evs : list event).

Lemma in_world_trace {A} ev (m : M World A) r res r' :
  in_world ev m r = (res, r') -> trace r' = trace r ++ [ev].
Proof.
  unfold in_world. destruct (m (world r)) as [res0 w']. by intros [= _ <-].
Qed.

(** The inner loop only appends calls of processors to the trace,
    starting with a call on the paths it was given. *)
Lemma run_processors_trace (ps : list (processor World)) i o r res r' :
  run_processors ps i o r = (res, r') ->
  exists evs,
    trace r' = trace r ++ evs
    /\ Forall (fun ev => exists a b, ev = Processed a b) evs
    /\ (is_empty ps = false -> exists evs', evs = Processed i o :: evs').
Proof.
  revert i r. induction ps as [|p ps IH]; intros i r; cbn [run_processors].
  - intros [= _ <-]. exists []. by rewrite app_nil_r.
  - unfold bind. destruct (in_world _ _ r) as [[[]|e] r1] eqn:E1;
      apply in_world_trace in E1.
    + intros (evs & -> & Hall & _)%IH. exists (Processed i o :: evs).
      rewrite E1, <- app_assoc. eauto 10.
    + intros [= _ <-]. exists [Processed i o]. split_and!; eauto.
Qed.

(** One iteration appends its processor calls and at most one removal,
    of the file of that iteration, under the guard of line 62. *)
Lemma process_file_trace self ip path r res r' :
  process_file self ip path r = (res, r') ->
  exists evs,
    trace r' = trace r ++ evs
    /\ (forall p, Removed p ∈ evs ->
          p = path /\ delete_origin self = true
          /\ exists ip0, ip = Some ip0 /\ path <> outfile_path_of self ip0 path)
    /\ (forall ip0, ip = Some ip0 -> is_empty (processors self) = false ->
          exists evs', evs = Processed ip0 (outfile_path_of self ip0 path) :: evs').
Proof.
  unfold process_file. destruct ip as [ip0|]; cbn [read_local].
  2:{ intros [= _ <-]. exists []. rewrite app_nil_r. split_and!; [done| |done].
      intros p Hp. by apply elem_of_nil in Hp. }
  rewrite (bind_Return _ _ _ ip0 r) by done.
  unfold bind at 1.
  destruct (run_processors _ _ _ r) as [[ip'|e] r1] eqn:E1;
    apply run_processors_trace in E1 as (evs1 & E1 & Hall & Hfirst).
  2:{ intros [= _ <-]. exists evs1. split_and!; [done| |].
      - intros p Hp. rewrite Forall_forall in Hall.
        by destruct (Hall _ Hp) as (? & ? & ?).
      - by intros ? [= <-]. }
  assert (Hproc : forall p, Removed p ∈ evs1 -> False).
  { intros p Hp. rewrite Forall_forall in Hall.
    by destruct (Hall _ Hp) as (? & ? & ?). }
  unfold bind.
  destruct (bool_decide (path <> _) && delete_origin self) eqn:Hguard.
  - apply andb_true_iff in Hguard as [Hne%bool_decide_eq_true Hdel].
    destruct (in_world _ _ r1) as [[[]|e] r2] eqn:E2;
      apply in_world_trace in E2; intros [= _ <-];
      exists (evs1 ++ [Removed path]); rewrite E2, E1, <- app_assoc;
      (split_and!; [done| |]).
    all: try (intros p [Hp|Hp%list_elem_of_singleton]%elem_of_app;
              [by destruct (Hproc p)|]; injection Hp as ->; eauto 10).
    all: intros ? [= <-] Hps; destruct (Hfirst Hps) as [evs' ->]; eauto.
  - cbn. intros [= _ <-]. exists evs1. split_and!; [done| |].
    + intros p Hp. by destruct (Hproc p).
    + by intros ? [= <-].
Qed.

(** The whole loop: every removal it issues is the removal of a matched
    file, with [delete_origin] set, whose output path, computed from the
    binding of [infile_path] at the start of its iteration, differed from
    it. *)
Lemma process_files_trace self ip files r res r' :
  process_files self ip files r = (res, r') ->
  exists evs,
    trace r' = trace r ++ evs
    /\ forall p, Removed p ∈ evs ->
         delete_origin self = true
         /\ exists done rest ip0 r0,
              files = done ++ p :: rest
              /\ process_files self ip done r = (Return (Some ip0), r0)
              /\ p <> outfile_path_of self ip0 p.
Proof.
  revert ip r. induction files as [|path rest IH]; intros ip r; cbn [process_files].
  - intros [= _ <-]. exists []. rewrite app_nil_r. split; [done|].
    intros p Hp. by apply elem_of_nil in Hp.
  - unfold bind. destruct (process_file self ip path r) as [[ip'|e] r1] eqn:E1;
      pose proof E1 as Hfile;
      apply process_file_trace in E1 as (evs1 & E1 & Hrem & _).
    + intros (evs & -> & Hrest)%IH. exists (evs1 ++ evs).
      rewrite E1, <- app_assoc. split; [done|].
      intros p [Hp|Hp]%elem_of_app.
      * destruct (Hrem p Hp) as (-> & Hdel & ip0 & -> & Hne).
        split; [done|]. by exists [], rest, ip0, r.
      * destruct (Hrest p Hp) as (Hdel & done & rest' & ip0 & r0 & -> & Hdone & Hne).
        split; [done|]. exists (path :: done), rest', ip0, r0.
        split_and!; [done| |done].
        cbn [process_files]. by rewrite (bind_Return _ _ _ _ _ Hfile).
    + intros [= _ <-]. exists evs1. split; [done|].
      intros p Hp. destruct (Hrem p Hp) as (-> & Hdel & ip0 & -> & Hne).
      split; [done|]. by exists [], rest, ip0, r.
Qed.

End ManagerFacts.

Section ManagerClaims.
Context `{OS World}.
Implicit Types (self : FileManager World) (r : run World).

(** C9: a call [os.remove(p)] issued by the loop of [process] is the
    removal of a matched file [p], happens only with [delete_origin] set,
    and only when the output path computed in the iteration of [p] differs
    from [p]. *)
Theorem origin_removed_only_under_guard self ip files r res r' p :
  process_files self ip files r = (res, r') ->
  Removed p ∈ trace r' ->
  Removed p ∈ trace r
  \/ (delete_origin self = true
      /\ exists done rest ip0 r0,
           files = done ++ p :: rest
           /\ process_files self ip done r = (Return (Some ip0), r0)
           /\ p <> outfile_path_of self ip0 p).
Proof.
  intros (evs & -> & Hrem)%process_files_trace [Hp|Hp]%elem_of_app; eauto.
Qed.

End ManagerClaims.

Lemma origin_removed_witness :
  Removed a_html ∈ trace (mkRun fresh [])
  \/ (delete_origin deleting = true
      /\ exists done rest ip0 r0,
           [a_html] = done ++ a_html :: rest
           /\ @process_files corrector os_corrector deleting (Some a_html) done
                (mkRun fresh []) = (Return (Some ip0), r0)
           /\ a_html <> outfile_path_of deleting ip0 a_html).
Proof.
  eapply (@origin_removed_only_under_guard corrector os_corrector deleting
            (Some a_html) [a_html] (mkRun fresh [])).
  - reflexivity.
  - vm_compute. apply list_elem_of_here.
Defined.

Section RunOfProcess.
Context `{OS World} `{Walk}.
Implicit Types (self : FileManager World) (r : run World).

(** Were a path ever yielded, the first iteration would stop on line 55,
    which reads [infile_path] before line 60 has assigned it. *)
Lemma iteration_unbound_local self path r :
  iteration self path (None, r) = (Raise UnboundLocalError, (None, r)).
Proof. reflexivity. Qed.

(** The files of one directory: the first name stops the generator, since
    [Path.match] is handed the compiled pattern. *)
Lemma files_of_directory_raise {S} self (dirpath : Path) (names : list string)
    (body : Path -> M S unit) (st : S) :
  for_each names (fun name =>
    let path := joinpath dirpath name in
    matched <- lift (path_match path (compiled_pattern (file_match_pattern self))) ;;
    if matched : bool then body path else ret tt) st
  = (if is_empty names then Return tt else Raise TypeError, st).
Proof. by destruct names. Qed.

Lemma files_raise {S} self (body : Path -> M S unit) (st : S) :
  files self body st
  = (match os_walk with
     | None => Raise NameError
     | Some walk =>
         if forallb (fun triple => is_empty triple.2) (walk (root_dir self))
         then Return tt else Raise TypeError
     end, st).
Proof.
  unfold files. destruct os_walk as [walk|]; [|done].
  induction (walk (root_dir self)) as [|[[dirpath dirnames] names] triples IH];
    [done|].
  cbn [for_each forallb]. unfold bind at 1.
  rewrite files_of_directory_raise. cbn [snd].
  destruct (is_empty names); [|done]. apply IH.
Qed.


(** In particular a call of [process] issues no [os.remove]. *)
Lemma process_removes_nothing self r p :
  Removed p ∈ trace (process self r).2 -> Removed p ∈ trace r.
Proof. unfold process. by rewrite files_raise. Qed.

End RunOfProcess.

(** A directory with the two matching files [a.html] and [b.html]: the
    run ends at the first one and reaches neither. *)
Example two_matching_files_abort :
  @process corrector os_corrector MoreExamples.two_files keeping (mkRun fresh [])
  = (Raise TypeError, mkRun fresh [])
  /\ @process corrector os_corrector MoreExamples.not_imported keeping
       (mkRun fresh [])
     = (Raise NameError, mkRun fresh []).
Proof. split; reflexivity. Qed.

(* ===================================================================== *)
(** * Further results *)
(* ===================================================================== *)

(** ** The loop body of [_replace_tag] in an arbitrary state *)

Section ScanFacts.
Context `{Collaborators Html}.
Implicit Types (s : scan Html) (tag : Tag).

Lemma scan_mathjax_frame tag s :
  html (scan_mathjax tag s).2 = html s
  /\ html_tag_stack (scan_mathjax tag s).2 = html_tag_stack s.
Proof.
  destruct s as [h ms hs].
  unfold scan_mathjax, bind, get, lift, modify, empty_or_top_closed, top, pop.
  cbn [mathjax_tag_stack].
  destruct ms as [|m ms]; [done|]. cbn [is_empty].
  destruct (last (m :: ms)) as [t|]; [|done]. by destruct (closed t).
Qed.

Lemma scan_html_frame tag s :
  mathjax_tag_stack (scan_html tag s).2 = mathjax_tag_stack s.
Proof.
  destruct s as [h ms hs].
  unfold scan_html, bind, get, lift, modify, empty_or_top_closed, top, pop.
  cbn [html_tag_stack mathjax_tag_stack].
  destruct hs as [|x hs]; cbn [is_empty].
  { by destruct (broken tag). }
  destruct (last (x :: hs)) as [t|]; [|done].
  destruct (closed t); [by destruct (broken tag)|].
  destruct math_tag_stack as [g|]; [|done].
  destruct (is_empty g); [done|].
  destruct (last ms) as [m|]; [|done]. by destruct (closed m).
Qed.

(** X1: the two schemes do not interfere.  A math token, whatever it
    does, leaves the text and [html_tag_stack] as they are; an HTML token
    leaves [mathjax_tag_stack] as it is.  This holds in every state and also
    when the token raises. *)
Theorem scan_tag_frame tag s :
  (tag_class tag = MathJaxTag
   /\ html (scan_tag tag s).2 = html s
   /\ html_tag_stack (scan_tag tag s).2 = html_tag_stack s)
  \/ (tag_class tag = HtmlTag
      /\ mathjax_tag_stack (scan_tag tag s).2 = mathjax_tag_stack s).
Proof.
  destruct tag as [[] n c b]; [left|right]; (split; [done|]).
  - pose proof (scan_mathjax_frame (mkTag MathJaxTag n c b) s) as Hf.
    unfold scan_tag, bind; cbn [isinstance tag_class].
    by destruct (scan_mathjax _ s) as [[[]|e] s'].
  - pose proof (scan_html_frame (mkTag HtmlTag n c b) s) as Hf.
    unfold scan_tag; cbn [isinstance tag_class]. by rewrite bind_Return with (a := tt) (s' := s).
Qed.

(** X2: once a math region is open, its delimiters only accumulate.  When
    the top of [mathjax_tag_stack] is not closed and the entries made for
    the scanned math tokens are not closed either, every token is appended
    and none is popped: the stack grows by one entry per token. *)
Theorem math_tokens_accumulate tags h ms t hs :
  closed t = false ->
  Forall (fun tag => tag_class tag = MathJaxTag /\ closed (tag_call tag) = false) tags ->
  for_each tags scan_tag (mkScan h (append ms t) hs)
  = (Return tt, mkScan h (append ms t ++ map tag_call tags) hs).
Proof.
  intros Ht Hall. revert ms t Ht.
  induction Hall as [|tag tags [Hcls Hcall] _ IH]; intros ms t Ht.
  - cbn. by rewrite app_nil_r.
  - cbn [for_each map]. erewrite bind_Return; last first.
    { unfold scan_tag. destruct tag as [[] n c b]; [|done].
      cbn [isinstance tag_class]. erewrite bind_Return; [reflexivity|].
      by apply scan_mathjax_top_open. }
    rewrite IH by done. unfold append. by rewrite <- !app_assoc.
Qed.

Lemma scan_html_empty tag h ms :
  scan_html tag (mkScan h ms [])
  = (Raise IndexError, mkScan (if broken tag then tag_delete tag h else h) ms []).
Proof. unfold scan_html, bind, get, lift, modify; cbn. by destruct (broken tag). Qed.

Lemma scan_tag_no_push tag s :
  math_tag_stack = None ->
  length (html_tag_stack (scan_tag tag s).2) <= length (html_tag_stack s)
  /\ (html (scan_tag tag s).2 = html s
      \/ html (scan_tag tag s).2 = tag_delete tag (html s)).
Proof.
  intros Hg. destruct tag as [[] n c b].
  - pose proof (scan_mathjax_frame (mkTag MathJaxTag n c b) s) as [Hh Hs].
    unfold scan_tag, bind; cbn [isinstance tag_class].
    destruct (scan_mathjax _ s) as [[[]|e] s']; cbn in *; rewrite Hh, Hs; auto.
  - unfold scan_tag; cbn [isinstance tag_class].
    rewrite bind_Return with (a := tt) (s' := s) by done.
    destruct s as [h ms hs]. cbn [html_tag_stack html].
    destruct hs as [|x hs _] using rev_ind.
    + rewrite scan_html_empty. cbn. destruct b; auto.
    + change (hs ++ [x]) with (append hs x). destruct (closed x) eqn:Hx.
      * rewrite scan_html_top_closed by done. cbn. unfold append.
        rewrite length_app. split; [lia|]. destruct b; auto.
      * rewrite scan_html_top_open_unbound by done. cbn. auto.
Qed.

(** X3: as the file stands, with the global of line 159 bound nowhere,
    no scan ever pushes an HTML token: from any state and for any tokens,
    [html_tag_stack] is at the end no longer than at the start. *)
Theorem html_stack_never_grows tags s :
  math_tag_stack = None ->
  length (html_tag_stack (for_each tags scan_tag s).2) <= length (html_tag_stack s).
Proof.
  intros Hg. revert s. induction tags as [|tag tags IH]; intros s; [done|].
  cbn [for_each]. unfold bind.
  pose proof (scan_tag_no_push tag s Hg) as [Hlen _].
  destruct (scan_tag tag s) as [[[]|e] s']; cbn in *; [|done].
  etrans; [apply IH|done].
Qed.

End ScanFacts.

Lemma math_tokens_accumulate_witness :
  @for_each (scan string) Tag
     [MathDelimiterOpen "$"; MathDelimiterOpen "$"]
     (@scan_tag string MoreExamples.unbound)
     (mkScan "x" (append [] (MathDelimiterOpen "$")) [])
  = (Return tt,
     mkScan "x"
       (append [] (MathDelimiterOpen "$")
        ++ map (@tag_call string MoreExamples.unbound)
               [MathDelimiterOpen "$"; MathDelimiterOpen "$"])
       []).
Proof.
  apply (@math_tokens_accumulate string MoreExamples.unbound).
  - reflexivity.
  - repeat constructor.
Defined.

Lemma html_stack_never_grows_witness :
  length (html_tag_stack
            (@for_each (scan string) Tag [HtmlOpen "p"; HtmlClose "p"]
               (@scan_tag string MoreExamples.unbound)
               (mkScan "x" [] [HtmlClose "q"])).2)
  <= length (html_tag_stack (mkScan "x" [] [HtmlClose "q"])).
Proof.
  apply (@html_stack_never_grows string MoreExamples.unbound). reflexivity.
Defined.

(** ** The traversal [_correct_tag] *)

Section TraversalFacts.
Context `{Collaborators Html} `{!MathJaxCorrector.Document Doc Node Html Kws}.
Import MathJaxCorrector.

(** The repair of one leaf raises and leaves the document alone. *)
Lemma _replace_tag_in_raises (parent_tag : Node) (d : Doc) :
  exists e,
    _replace_tag_in parent_tag d = (Raise e, d)
    /\ (e = IndexError \/ e = BrokenHtmlCode).
Proof.
  unfold _replace_tag_in, _replace_tag.
  destruct (match_tag (prettify parent_tag d)) as [|tag tags].
  - rewrite _replace_tag_on_nil. eauto.
  - rewrite _replace_tag_on_cons. eauto.
Qed.

(** X4: the traversal never completes and never edits the document.  For
    every document, tag and nesting allowance, [_correct_tag] is cut off
    by the recursion limit or ends in an exception, and the document is as
    it was, so that line 173 is never reached.  The exception is
    [AttributeError] when [tag_kws] was never set; otherwise it is
    [TypeError] (a tag without a child named [findall]) or one of the two
    exceptions of [_replace_tag]. *)
Theorem _correct_tag_never_returns depth (tag : Node) (d : Doc) :
  (exists e,
      _correct_tag depth tag d = (Within (Raise e), d)
      /\ match tag_kws with
         | None => e = AttributeError
         | Some _ => e = TypeError \/ e = IndexError \/ e = BrokenHtmlCode
         end)
  \/ _correct_tag depth tag d = (RecursionError, d).
Proof.
  revert tag. induction depth as [|depth IH]; intros tag; [by right|].
  cbn [_correct_tag]. destruct tag_kws as [kws|]; [|eauto].
  destruct (findall tag d) as [find_all|]; [|eauto].
  destruct (find_all kws) as [|t ts]; cbn [is_empty].
  - destruct (_replace_tag_in_raises tag d) as (e & -> & [-> | ->]); eauto 6.
  - destruct (IH t) as [(e & -> & He)| ->]; eauto.
Qed.

End TraversalFacts.

(** ** [Corrector.process] with any [_process] *)

Section CorrectorMore.
Context `{Processor}.

(** X6: a missing input with a derived name is reported before anything
    is created.  [open(infile_path, 'rb')] raises [FileNotFoundError];
    the output file is not opened, no handle exists and the file system is
    the one before the call. *)
Theorem missing_input_creates_nothing infile_path outfile_path c :
  infile_path <> outfile_path ->
  fs (os c) !! infile_path = None ->
  Corrector_process infile_path outfile_path c = (Raise FileNotFoundError, c).
Proof.
  intros Hne Hnone. unfold Corrector_process, open_files.
  rewrite decide_False by done.
  unfold bind, in_os, open_. rewrite Hnone. by destruct c.
Qed.

(** After the opens both attributes are set, to one handle when the paths
    are equal. *)
Lemma open_files_attributes infile_path outfile_path c c1 :
  open_files infile_path outfile_path c = (Return tt, c1) ->
  exists fi fo, infile_ c1 = Some fi /\ outfile_ c1 = Some fo.
Proof.
  unfold open_files. destruct (decide (infile_path = outfile_path)) as [->|Hne].
  - intros [= <-]. cbn. eauto.
  - unfold bind, in_os, open_, modify, ret.
    destruct (fs (os c) !! infile_path); [|done]. intros [= <-]. cbn. eauto.
Qed.

(** X7: on success [process] closes what it opened and writes nothing
    itself.  When the opens succeed and [_process] returns, leaving the
    two attributes as they were set, the call returns; the file contents
    are those that [_process] left, and the file objects named by
    [infile_] and [outfile_] are closed. *)
Theorem success_closes_both_handles infile_path outfile_path c c1 c2 :
  open_files infile_path outfile_path c = (Return tt, c1) ->
  _process c1 = (Return tt, c2) ->
  infile_ c2 = infile_ c1 ->
  outfile_ c2 = outfile_ c1 ->
  exists c3,
    Corrector_process infile_path outfile_path c = (Return tt, c3)
    /\ fs (os c3) = fs (os c2)
    /\ forall f, infile_ c1 = Some f \/ outfile_ c1 = Some f ->
         h_closed <$> handles (os c3) !! f
         = (fun _ => true) <$> handles (os c2) !! f.
Proof.
  intros Hopen Hproc Hin Hout.
  destruct (open_files_attributes _ _ _ _ Hopen) as (fi & fo & Hfi & Hfo).
  unfold Corrector_process.
  rewrite (bind_Return _ _ _ _ _ Hopen), (bind_Return _ _ _ _ _ Hproc).
  unfold close_files, bind, getattr. rewrite Hout, Hfo.
  destruct (decide (infile_path <> outfile_path)) as [Hne|Heq].
  - cbn. rewrite Hin, Hfi. cbn. eexists. split; [reflexivity|].
    split; [done|]. cbn. unfold fd in *. intros f Hf.
    assert (f = fi \/ f = fo) as Hcases by (destruct Hf; [left|right]; congruence).
    set (shut := fun h => mkHandle (h_path h) (h_mode h) true).
    destruct Hcases as [-> | ->].
    + rewrite (list_lookup_alter_eq shut).
      destruct (decide (fo = fi)) as [->|Hd].
      * rewrite (list_lookup_alter_eq shut). by destruct (handles (os c2) !! fi).
      * rewrite (list_lookup_alter_ne shut) by done.
        by destruct (handles (os c2) !! fi).
    + destruct (decide (fi = fo)) as [->|Hd].
      * rewrite !(list_lookup_alter_eq shut). by destruct (handles (os c2) !! fo).
      * rewrite (list_lookup_alter_ne shut) by done.
        rewrite (list_lookup_alter_eq shut). by destruct (handles (os c2) !! fo).
  - cbn. eexists. split; [reflexivity|]. split; [done|]. cbn. unfold fd in *.
    intros f Hf.
    assert (infile_path = outfile_path) as Hsame.
    { destruct (decide (infile_path = outfile_path)); [done|by destruct Heq]. }
    assert (fi = fo) as ->.
    { subst outfile_path. rewrite open_files_in_place in Hopen.
      injection Hopen as <-. cbn in *. congruence. }
    assert (f = fo) as -> by (destruct Hf; congruence).
    rewrite list_lookup_alter_eq. by destruct (handles (os c2) !! fo).
Qed.

End CorrectorMore.

Lemma missing_input_witness :
  @Corrector_process copying MoreExamples.missing a_out fresh
  = (Raise FileNotFoundError, fresh).
Proof.
  apply (@missing_input_creates_nothing copying MoreExamples.missing a_out fresh).
  - discriminate.
  - reflexivity.
Defined.

Lemma success_closes_witness :
  exists c3,
    @Corrector_process copying a_html a_out fresh = (Return tt, c3)
    /\ fs (os c3) = fs (os MoreExamples.copied)
    /\ forall f, infile_ opened = Some f \/ outfile_ opened = Some f ->
         h_closed <$> handles (os c3) !! f
         = (fun _ => true) <$> handles (os MoreExamples.copied) !! f.
Proof.
  apply (@success_closes_both_handles copying a_html a_out fresh opened
           MoreExamples.copied).
  - reflexivity.
  - vm_compute. reflexivity.
  - reflexivity.
  - reflexivity.
Defined.

(** ** [MathJaxCorrector._process] under [Corrector.process] *)

Section MathJaxProcess.
Context `{!MathJaxCorrector.Soup Node Kws}.

(** X8: in place the corrector cannot work and destroys its input.  When
    the two paths are equal, for every file, parser and traversal, the
    call raises ([NameError] when [soup_kws] is bound nowhere, otherwise
    the refusal to read a handle opened for writing); the file is left
    empty and its handle open. *)
Theorem in_place_correction_empties_file p c :
  exists e,
    @Corrector_process MathJaxCorrector.processor p p c
    = (Raise e,
       mkCorrector (mkOs (<[p := []]> (fs (os c)))
                         (handles (os c) ++ [mkHandle p wb false]))
                   (Some (length (handles (os c))))
                   (Some (length (handles (os c)))))
    /\ (e = NameError \/ e = UnsupportedOperation).
Proof.
  unfold Corrector_process.
  rewrite (bind_Return _ _ _ _ _ (open_files_in_place p c)).
  unfold bind at 1. cbn [_process MathJaxCorrector.processor].
  unfold MathJaxCorrector._process, bind, getattr, lift; cbn [infile_].
  destruct MathJaxCorrector.soup_kws as [kws|]; [|eauto].
  unfold in_os; cbn [os]. rewrite read_write_only. eauto.
Qed.

(** X9: with a derived name the corrector is a read-correct-write
    pipeline whose only write is its last step.  When the input exists and
    [soup_kws] is bound: if the traversal returns a document, the call
    returns, the output file holds exactly the serialized document, the
    input is untouched and both handles are closed; if the traversal
    raises, the call raises the same exception and the output file is
    empty. *)
Theorem derived_correction_pipeline infile_path outfile_path c data kws :
  infile_path <> outfile_path ->
  fs (os c) !! infile_path = Some data ->
  MathJaxCorrector.soup_kws = Some kws ->
  let n := length (handles (os c)) in
  @Corrector_process MathJaxCorrector.processor infile_path outfile_path c
  = match MathJaxCorrector.correct (MathJaxCorrector.BeautifulSoup data kws) with
    | Return dom_ =>
        (Return tt,
         mkCorrector
           (mkOs (<[outfile_path := MathJaxCorrector.prettify_document dom_]>
                    (fs (os c)))
                 (handles (os c) ++ [mkHandle infile_path rb true;
                                     mkHandle outfile_path wb true]))
           (Some n) (Some (S n)))
    | Raise e =>
        (Raise e,
         mkCorrector
           (mkOs (<[outfile_path := []]> (fs (os c)))
                 (handles (os c) ++ [mkHandle infile_path rb false;
                                     mkHandle outfile_path wb false]))
           (Some n) (Some (S n)))
    end.
Proof.
  intros Hne Hdata Hkws n. unfold Corrector_process.
  rewrite (bind_Return _ _ _ _ _
             (open_files_derived _ _ _ Hne (ex_intro _ data Hdata))).
  cbn [app]. fold n.
  unfold bind at 1. cbn [_process MathJaxCorrector.processor].
  unfold MathJaxCorrector._process, bind, getattr, lift; cbn [infile_ outfile_].
  rewrite Hkws. unfold in_os, read; cbn [os handles fs].
  rewrite lookup_app_r by done. subst n. rewrite Nat.sub_diag. cbn [lookup list_lookup].
  rewrite lookup_insert_ne by done. rewrite Hdata.
  destruct (MathJaxCorrector.correct _) as [dom_|e]; [|done].
  unfold write; cbn [os handles fs infile_ outfile_].
  rewrite lookup_app_r by lia.
  replace (S (length (handles (os c))) - length (handles (os c))) with 1 by lia.
  cbn [lookup list_lookup]. rewrite lookup_insert_eq, insert_insert_eq. cbn [default app].
  unfold close_files, bind, getattr; cbn [outfile_ infile_].
  rewrite decide_True by done.
  unfold in_os, close, modify; cbn.
  do 2 f_equal. f_equal.
  rewrite alter_app_r_alt by lia.
  replace (S (length (handles (os c))) - length (handles (os c))) with 1 by lia.
  rewrite alter_app_r_alt by lia. rewrite Nat.sub_diag. reflexivity.
Qed.

End MathJaxProcess.

Lemma derived_pipeline_witness :
  @Corrector_process
     (@MathJaxCorrector.processor bytes unit MoreExamples.identity_soup)
     a_html a_out fresh
  = (Return tt,
     mkCorrector
       (mkOs (<[a_out := [x61]]> (fs (os fresh)))
             (handles (os fresh) ++ [mkHandle a_html rb true;
                                     mkHandle a_out wb true]))
       (Some 0) (Some 1)).
Proof.
  apply (@derived_correction_pipeline bytes unit MoreExamples.identity_soup
           a_html a_out fresh [x61] tt).
  - discriminate.
  - reflexivity.
  - reflexivity.
Defined.

(** ** More on [FileManager] *)



Lemma append_eq_empty (a b : string) :
  a +:+ b = EmptyString <-> a = EmptyString /\ b = EmptyString.
Proof.
  split; [|by intros [-> ->]]. destruct a; [done|]. by rewrite append_String.
Qed.

Section ManagerMore.
Context `{OS World}.
Implicit Types (self : FileManager World) (r : run World).

(** The calls made by the inner loop: the first processor gets the input
    and the output path, every later one the output path twice. *)
Lemma run_processors_chain (ps : list (processor World)) i o r res r' :
  run_processors ps i o r = (res, r') ->
  exists k,
    k <= length ps
    /\ trace r' = trace r
                  ++ take k (Processed i o :: replicate (length ps - 1) (Processed o o))
    /\ match res with
       | Return ip' => k = length ps /\ ip' = if is_empty ps then i else o
       | Raise _ => 0 < k
       end.
Proof.
  revert i r. induction ps as [|p ps IH]; intros i r; cbn [run_processors].
  - intros [= <- <-]. exists 0. cbn. by rewrite app_nil_r.
  - unfold bind. destruct (in_world _ _ r) as [[[]|e] r1] eqn:E1;
      apply in_world_trace in E1.
    + intros (k & Hk & Htr & Hres)%IH. exists (S k). cbn [length].
      split; [lia|]. split.
      * rewrite Htr, E1, <- app_assoc. cbn. rewrite Nat.sub_0_r. do 2 f_equal.
        destruct ps as [|q ps]; cbn in *.
        { by replace k with 0 by lia. }
        by rewrite Nat.sub_0_r.
      * destruct res as [ip'|e]; [|lia]. destruct Hres as [-> ->].
        split; [done|]. by destruct ps.
    + intros [= <- <-]. exists 1. cbn. split; [lia|]. split; [done|lia].
Qed.

(** X11: a chain of processors works in place from the second one on.
    With at least one processor, the first is called on the input and the
    output path and each of the others on the output path for both
    arguments; when all of them return, [infile_path] is bound to the
    output path. *)
Theorem later_processors_run_in_place
    (p : processor World) (ps : list (processor World)) i o r res r' :
  run_processors (p :: ps) i o r = (res, r') ->
  exists k,
    k <= length ps
    /\ trace r' = trace r ++ Processed i o :: replicate k (Processed o o)
    /\ match res with
       | Return ip' => k = length ps /\ ip' = o
       | Raise _ => True
       end.
Proof.
  intros (k & Hk & Htr & Hres)%run_processors_chain. cbn [length] in *.
  destruct k as [|k].
  { destruct res; [destruct Hres; lia|lia]. }
  exists k. split; [lia|]. split.
  - rewrite Htr. cbn. rewrite Nat.sub_0_r. do 2 f_equal.
    rewrite take_replicate. f_equal. lia.
  - destruct res as [ip'|e]; [|done]. destruct Hres as [Hlen ->].
    split; [lia|done].
Qed.

(** X12: an iteration that returns has called every processor, then
    removed the matched file exactly when [delete_origin] is set and the
    output path differs from it, as its last action, and has bound
    [infile_path] to the output path (or left it, without processors). *)
Theorem process_file_returns self ip path r ip' r' :
  process_file self (Some ip) path r = (Return ip', r') ->
  let out := outfile_path_of self ip path in
  ip' = Some (if is_empty (processors self) then ip else out)
  /\ trace r'
     = trace r
       ++ take (length (processors self))
               (Processed ip out
                :: replicate (length (processors self) - 1) (Processed out out))
       ++ (if bool_decide (path <> out) && delete_origin self
           then [Removed path] else []).
Proof.
  intros Hrun out. unfold process_file in Hrun. cbn [read_local] in Hrun.
  rewrite (bind_Return _ _ _ ip r) in Hrun by done. fold out in Hrun.
  unfold bind in Hrun.
  destruct (run_processors _ _ _ r) as [[ip1|e] r1] eqn:E1; [|done].
  apply run_processors_chain in E1 as (k & _ & Htr & -> & ->).
  destruct (bool_decide (path <> out) && delete_origin self).
  - destruct (in_world _ _ r1) as [[[]|e] r2] eqn:E2; [|done].
    apply in_world_trace in E2. injection Hrun as <- <-.
    split; [done|]. by rewrite E2, Htr, <- app_assoc.
  - cbn in Hrun. injection Hrun as <- <-. split; [done|].
    by rewrite Htr, app_nil_r.
Qed.


End ManagerMore.

Lemma later_processors_witness :
  let run :=
    @run_processors corrector
       [@Corrector_process copying; @Corrector_process copying]
       a_html a_out (mkRun fresh []) in
  exists k,
    k <= length [@Corrector_process copying]
    /\ trace run.2
       = trace (mkRun fresh [])
         ++ Processed a_html a_out :: replicate k (Processed a_out a_out)
    /\ match run.1 with
       | Return ip' => k = length [@Corrector_process copying] /\ ip' = a_out
       | Raise _ => True
       end.
Proof.
  intros run.
  apply (@later_processors_run_in_place corrector
           (@Corrector_process copying) [@Corrector_process copying]
           a_html a_out (mkRun fresh []) run.1 run.2).
  apply surjective_pairing.
Defined.

Lemma process_file_returns_witness :
  let run :=
    @process_file corrector os_corrector deleting (Some a_html) a_html
       (mkRun fresh []) in
  let out := outfile_path_of deleting a_html a_html in
  Some a_html = Some (if is_empty (processors deleting) then a_html else out)
  /\ trace run.2
     = trace (mkRun fresh [])
       ++ take (length (processors deleting))
               (Processed a_html out
                :: replicate (length (processors deleting) - 1) (Processed out out))
       ++ (if bool_decide (a_html <> out) && delete_origin deleting
           then [Removed a_html] else []).
Proof.
  intros run.
  apply (@process_file_returns corrector os_corrector deleting a_html a_html
           (mkRun fresh []) (Some a_html) run.2).
  reflexivity.
Defined.

Lemma split_sep_no_sep (s : string) : has_sep s = false -> split_sep s = [s].
Proof.
  induction s as [|c s IH]; [done|]. cbn [has_sep split_sep].
  intros [Hc Hs]%orb_false_iff. by rewrite Hc, (IH Hs).
Qed.

Lemma root_of_no_sep (s : string) : has_sep s = false -> root_of s = EmptyString.
Proof.
  destruct s as [|c s]; [done|]. cbn [has_sep root_of].
  by intros [-> _]%orb_false_iff.
Qed.

Lemma is_root_no_sep (s : string) : has_sep s = false -> is_root s = false.
Proof.
  intros Hs. unfold is_root.
  destruct (String.eqb_spec s "/") as [->|_]; [done|].
  by destruct (String.eqb_spec s "//") as [->|_].
Qed.

(** A segment that is one proper directory entry is appended as it is. *)
Lemma joinpath_entry (p : Path) (s : string) :
  has_sep s = false -> is_component s = true -> joinpath p s = p ++ [s].
Proof.
  intros Hs Hc. unfold joinpath, components.
  rewrite (root_of_no_sep _ Hs), (split_sep_no_sep _ Hs). cbn. by rewrite Hc.
Qed.

Lemma parent_snoc (p : Path) (s : string) :
  has_sep s = false -> parent (p ++ [s]) = p.
Proof.
  intros Hs. destruct p as [|a p].
  - cbn. by rewrite (is_root_no_sep _ Hs).
  - transitivity (removelast ((a :: p) ++ [s])); [|apply removelast_last].
    unfold parent. cbn [app]. by destruct (p ++ [s]) eqn:E; [destruct p|].
Qed.

Lemma has_sep_append (a b : string) : has_sep (a +:+ b) = has_sep a || has_sep b.
Proof.
  induction a as [|c a IH]; [done|]. rewrite append_String. cbn [has_sep].
  by rewrite IH, orb_assoc.
Qed.

Lemma has_sep_str_drop i (s : string) :
  has_sep s = false -> has_sep (str_drop i s) = false.
Proof.
  revert s. induction i as [|i IH]; intros [|c s]; try done.
  cbn [has_sep str_drop]. intros [_ Hs]%orb_false_iff. by apply IH.
Qed.

Lemma has_sep_suffix_of (nm : string) :
  has_sep nm = false -> has_sep (suffix_of nm) = false.
Proof.
  intros Hs. unfold suffix_of. destruct (suffix_start nm); [|done].
  by apply has_sep_str_drop.
Qed.

Lemma is_component_append (a b : string) :
  is_component a = true -> is_component (a +:+ b) = true.
Proof.
  unfold is_component.
  intros [Ha Hdot]%andb_true_iff. apply andb_true_iff.
  apply negb_true_iff in Ha, Hdot. apply String.eqb_neq in Ha, Hdot.
  split; apply negb_true_iff, String.eqb_neq.
  - by intros [-> _]%append_eq_empty.
  - destruct a as [|c a]; [done|]. rewrite append_String.
    intros [= -> [-> _]%append_eq_empty]. done.
Qed.

Section OutputDirectory.
Context `{OS World}.
Implicit Types (self : FileManager World) (r : run World).

(** For a suffix without separator and a matched file whose name is a
    proper directory entry, the output name is one component, which
    [joinpath] appends to the directory of [infile_path]. *)
Lemma outfile_path_entry self ip path :
  has_sep (file_suffix self) = false ->
  has_sep (name path) = false ->
  is_component (name path) = true ->
  outfile_path_of self ip path = parent ip ++ [outfile_name self path]
  /\ parent (outfile_path_of self ip path) = parent ip.
Proof.
  intros Hsuffix Hname Hentry.
  assert (Hs : has_sep (outfile_name self path) = false).
  { unfold outfile_name, suffix.
    by rewrite !has_sep_append, Hsuffix, Hname, has_sep_suffix_of. }
  assert (Hout : outfile_path_of self ip path
                 = parent ip ++ [outfile_name self path]).
  { unfold outfile_path_of. apply joinpath_entry; [done|].
    by apply is_component_append. }
  split; [done|]. rewrite Hout. by apply parent_snoc.
Qed.

Lemma elem_of_chain (a b i o : Path) k n :
  Processed a b ∈ take k (Processed i o :: replicate n (Processed o o)) ->
  (a = i \/ a = o) /\ b = o.
Proof.
  intros Hin. apply (subseteq_take k) in Hin.
  apply elem_of_cons in Hin as [[= -> ->]|Hin]; [auto|].
  apply elem_of_replicate_inv in Hin as [= -> ->]. auto.
Qed.

(** What one iteration appends to the trace and how it rebinds
    [infile_path]. *)
Lemma process_file_outputs self ip path r res r1 :
  process_file self (Some ip) path r = (res, r1) ->
  exists evs,
    trace r1 = trace r ++ evs
    /\ (forall a b, Processed a b ∈ evs ->
          (a = ip \/ a = outfile_path_of self ip path)
          /\ b = outfile_path_of self ip path)
    /\ match res with
       | Return ip' =>
           ip' = Some ip \/ ip' = Some (outfile_path_of self ip path)
       | Raise _ => True
       end.
Proof.
  unfold process_file. cbn [read_local].
  rewrite (bind_Return _ _ _ ip r) by done.
  set (out := outfile_path_of self ip path). unfold bind.
  destruct (run_processors _ _ _ r) as [[ip1|e] r0] eqn:E1;
    apply run_processors_chain in E1 as (k & _ & Htr & Hres).
  2:{ intros [= <- <-]. eexists. split; [done|]. split; [|done].
      intros a b. apply elem_of_chain. }
  destruct Hres as [_ ->].
  assert (Hip : forall x, x = Some (if is_empty (processors self) then ip else out) ->
                          x = Some ip \/ x = Some out).
  { intros x ->. destruct (is_empty _); auto. }
  destruct (bool_decide (path <> out) && delete_origin self).
  - destruct (in_world _ _ r0) as [[[]|e] r2] eqn:E2;
      apply in_world_trace in E2; intros [= <- <-];
      (eexists; split; [by rewrite E2, Htr, <- app_assoc|]);
      (split; [|by auto]);
      (intros a b [Hin|Hin%list_elem_of_singleton]%elem_of_app;
       [by apply elem_of_chain in Hin|done]).
  - cbn. intros [= <- <-]. eexists. split; [done|]. split; [|by auto].
    intros a b. apply elem_of_chain.
Qed.

Lemma process_files_outputs self ip0 files ip r res r' :
  has_sep (file_suffix self) = false ->
  parent ip = parent ip0 ->
  Forall (fun path => has_sep (name path) = false
                      /\ is_component (name path) = true) files ->
  process_files self (Some ip) files r = (res, r') ->
  exists evs,
    trace r' = trace r ++ evs
    /\ forall a b, Processed a b ∈ evs ->
         parent a = parent ip0 /\ parent b = parent ip0.
Proof.
  intros Hsuffix Hdir Hnames. revert ip r Hdir.
  induction Hnames as [|path rest [Hname Hentry] _ IH]; intros ip r Hdir;
    cbn [process_files].
  - intros [= _ <-]. exists []. rewrite app_nil_r. split; [done|].
    intros a b Hin. by apply elem_of_nil in Hin.
  - pose proof (outfile_path_entry self ip path Hsuffix Hname Hentry)
      as [_ Hparent].
    unfold bind.
    destruct (process_file self (Some ip) path r) as [[ip'|e] r1] eqn:E1;
      apply process_file_outputs in E1 as (evs1 & E1 & Hout & Hip).
    + assert (exists ip1, ip' = Some ip1 /\ parent ip1 = parent ip0)
        as (ip1 & -> & Hdir1).
      { destruct Hip as [-> | ->]; eexists; (split; [done|]); [done|].
        by rewrite Hparent. }
      intros (evs & -> & Hrest)%(IH _ _ Hdir1). exists (evs1 ++ evs).
      rewrite E1, <- app_assoc. split; [done|].
      intros a b [Hin|Hin]%elem_of_app; [|by eauto].
      destruct (Hout a b Hin) as [[-> | ->] ->]; by rewrite ?Hparent.
    + intros [= _ <-]. exists evs1. split; [done|].
      intros a b Hin.
      destruct (Hout a b Hin) as [[-> | ->] ->]; by rewrite ?Hparent.
Qed.

(** X14: the paths handed to the processors come from [infile_path], not
    from the matched file.  When the configured suffix contains no
    separator, the loop starts with [infile_path] bound, and the matched
    files are named by proper directory entries (no separator, neither
    empty nor [.]), every call of a processor is given an input and an
    output path in the directory of that first binding, wherever the
    matched file lies. *)
Theorem outputs_share_one_directory self ip0 files r res r' :
  has_sep (file_suffix self) = false ->
  Forall (fun path => has_sep (name path) = false
                      /\ is_component (name path) = true) files ->
  process_files self (Some ip0) files r = (res, r') ->
  exists evs,
    trace r' = trace r ++ evs
    /\ forall a b, Processed a b ∈ evs ->
         parent a = parent ip0 /\ parent b = parent ip0.
Proof. intros Hsuffix Hnames. by apply process_files_outputs. Qed.

End OutputDirectory.


Lemma outputs_share_one_directory_witness :
  let run :=
    @process_files corrector os_corrector MoreExamples.copier (Some a_html)
       [a_html; MoreExamples.elsewhere] (mkRun fresh []) in
  exists evs,
    trace run.2 = trace (mkRun fresh []) ++ evs
    /\ forall a b, Processed a b ∈ evs ->
         parent a = parent a_html /\ parent b = parent a_html.
Proof.
  intros run.
  apply (@outputs_share_one_directory corrector os_corrector MoreExamples.copier
           a_html [a_html; MoreExamples.elsewhere] (mkRun fresh []) run.1 run.2).
  - reflexivity.
  - repeat constructor.
  - apply surjective_pairing.
Defined.

(** The second matched file lies in [root/sub]; its processor is still
    called with an output path in [root]. *)
Example output_lands_in_first_directory :
  trace (@process_files corrector os_corrector MoreExamples.copier (Some a_html)
           [a_html; MoreExamples.elsewhere] (mkRun fresh [])).2
  = [Processed a_html a_out;
     Processed a_out ["root"; "b.htmlfixed.html"]].
Proof. vm_compute. reflexivity. Qed.

(** ** Paths whose segments contain separators *)

(** A segment is parsed: it is split at the separators, empty and [.]
    components are dropped, and a segment with a root replaces the path. *)
Example joinpath_parses_segment :
  joinpath ["root"] "a.html/x.html" = ["root"; "a.html"; "x.html"]
  /\ joinpath ["root"] "README/." = ["root"; "README"]
  /\ joinpath ["root"] "/x" = ["/"; "x"]
  /\ joinpath ["root"] "//x" = ["//"; "x"]
  /\ joinpath ["root"] "///x" = ["/"; "x"]
  /\ joinpath ["root"] EmptyString = ["root"].
Proof. repeat split. Qed.

(** With the suffix [/x] the output of [root/a.html] lies below
    [root/a.html]; with the suffix [/.] the output path of [root/README]
    is [root/README] itself, so that the guard of line 62 keeps the file. *)
Example suffix_with_separator :
  outfile_path_of MoreExamples.nesting a_html a_html
  = ["root"; "a.html"; "x.html"]
  /\ outfile_path_of MoreExamples.dotted ["root"; "README"] ["root"; "README"]
     = ["root"; "README"]
  /\ trace (@process_file corrector os_corrector MoreExamples.dotted
              (Some ["root"; "README"]) ["root"; "README"] (mkRun fresh [])).2
     = [].
Proof. repeat split. Qed.
